(** * cloudfunc-iotcore: pushing a fan configuration to a Cloud IoT Core device

    A shallow embedding of [cloudfunc-iotcore/main.go] (the local program
    [main]) and of [cloudfunc-iotcore/cloudfunc.go] (the Cloud Function
    [UpdateWeather], reproduced in the README), with the library calls the
    two programs make: [fmt.Sprintf], [json.Marshal], base64
    [StdEncoding.EncodeToString], and the Cloud IoT client, whose answers
    come from a [World].

    Go strings and byte slices are [string]s (sequences of 8-bit [ascii]
    characters); Go's [int] is a 64-bit two's complement integer, carried
    as a [Z]; a Go [error] value is [option error], [None] standing for
    [nil]. *)

From Stdlib Require Import ZArith Lia List String Ascii Bool.
Import ListNotations.

Local Open Scope string_scope.
Local Open Scope Z_scope.

(** ** Characters and bytes *)

Definition byteVal (c : ascii) : Z := Z.of_N (N_of_ascii c).
Definition byteOf (z : Z) : ascii := ascii_of_N (Z.to_N z).

(** The double quote and the line feed, which a string literal cannot hold. *)
Definition dquote : ascii := "034"%char.
Definition newline : ascii := "010"%char.

(** ** package fmt *)

Module fmt.

(** Operands left over when the format is exhausted:
    [%!(EXTRA string=a, string=b)]. *)
Fixpoint extraList (args : list string) : string :=
  match args with
  | [] => ""
  | [a] => "string=" ++ a
  | a :: rest => "string=" ++ a ++ ", " ++ extraList rest
  end.

Definition extra (args : list string) : string :=
  match args with
  | [] => ""
  | _ => "%!(EXTRA " ++ extraList args ++ ")"
  end.

(** One verb applied to one string operand.  [%s] and [%v] print the
    operand as it is; any other verb is printed in Go's bad-verb form
    (the verbs [q], [x] and [X], which Go also accepts for strings, are not
    used by the programs and are not modelled). *)
Definition formatVerb (verb : ascii) (arg : string) : string :=
  if (Ascii.eqb verb "s" || Ascii.eqb verb "v")%bool then arg
  else "%!" ++ String verb ("(string=" ++ arg ++ ")").

(** [fmt.Sprintf] on string operands, without flags, width or precision. *)
Fixpoint Sprintf (format : string) (args : list string) : string :=
  match format with
  | EmptyString => extra args
  | String c rest =>
      if Ascii.eqb c "%" then
        match rest with
        | EmptyString => "%!(NOVERB)" ++ extra args
        | String verb rest' =>
            if Ascii.eqb verb "%" then String "%" (Sprintf rest' args)
            else
              match args with
              | [] => "%!" ++ String verb ("(MISSING)" ++ Sprintf rest' [])
              | a :: args' => formatVerb verb a ++ Sprintf rest' args'
              end
        end
      else String c (Sprintf rest args)
  end.

End fmt.

(** ** package strconv: decimal integers *)

Module strconv.

Definition uint64 (z : Z) : Z := z mod 2 ^ 64.

Definition digit (d : Z) : ascii := byteOf (48 + d).

(** [formatBits] fills its buffer from the right, one decimal digit per
    turn of the loop; the fuel is the length of that buffer. *)
Fixpoint formatBits (fuel : nat) (u : Z) (acc : string) : string :=
  match fuel with
  | O => acc
  | S fuel' =>
      if u <? 10 then String (digit u) acc
      else formatBits fuel' (u / 10) (String (digit (u mod 10)) acc)
  end.

Definition bufferLen : nat := 65.

(** [strconv.FormatInt(i, 10)]: the sign is taken off through [uint64]. *)
Definition FormatInt (i : Z) : string :=
  let neg := i <? 0 in
  let u := uint64 i in
  let u := if neg then uint64 (- u) else u in
  let digits := formatBits bufferLen u "" in
  if neg then String "-" digits else digits.

End strconv.

(** ** package encoding/base64 *)

Module b64.

Definition encodeStd : string :=
  "ABCDEFGHIJKLMNOPQRSTUVWXYZabcdefghijklmnopqrstuvwxyz0123456789+/".

Definition StdPadding : ascii := "="%char.

(** [enc.encode[i]] *)
Definition encode (i : Z) : ascii :=
  match String.get (Z.to_nat i) encodeStd with
  | Some c => c
  | None => StdPadding
  end.

(** The 24-bit group [src[0]<<16 | src[1]<<8 | src[2]]. *)
Definition group (b0 b1 b2 : ascii) : Z :=
  Z.lor (Z.lor (Z.shiftl (byteVal b0) 16) (Z.shiftl (byteVal b1) 8))
        (byteVal b2).

(** [enc.encode[val>>shift & 0x3F]] *)
Definition sextet (val shift : Z) : ascii :=
  encode (Z.land (Z.shiftr val shift) 63).

(** [StdEncoding.EncodeToString]: whole groups of three bytes first, then
    the remainder of one or two bytes, padded with [=]. *)
Fixpoint EncodeToString (src : string) : string :=
  match src with
  | EmptyString => ""
  | String b0 EmptyString =>
      let val := Z.shiftl (byteVal b0) 16 in
      String (sextet val 18) (String (sextet val 12)
        (String StdPadding (String StdPadding "")))
  | String b0 (String b1 EmptyString) =>
      let val := Z.lor (Z.shiftl (byteVal b0) 16) (Z.shiftl (byteVal b1) 8) in
      String (sextet val 18) (String (sextet val 12)
        (String (sextet val 6) (String StdPadding "")))
  | String b0 (String b1 (String b2 rest)) =>
      let val := group b0 b1 b2 in
      String (sextet val 18) (String (sextet val 12)
        (String (sextet val 6) (String (sextet val 0)
          (EncodeToString rest))))
  end.

End b64.

(** ** Errors *)

(** The error values the programs can meet: the encoder's
    [*json.UnsupportedTypeError], the client's [*googleapi.Error] with its
    HTTP status code, and any other error with its message. *)
Inductive error : Type :=
| UnsupportedTypeError (kind : string)
| googleapiError (code : Z) (message : string)
| errorString (message : string).

(** The [Error()] method, which [%v] prints. *)
Definition Error (e : error) : string :=
  match e with
  | UnsupportedTypeError kind => "json: unsupported type: " ++ kind
  | googleapiError code message =>
      "googleapi: Error " ++ strconv.FormatInt code ++ ": " ++ message
  | errorString message => message
  end.

(** The remote errors the specification names, by their status codes. *)
Definition InvalidArgument : error := googleapiError 400 "invalid argument".
Definition Unauthenticated : error := googleapiError 401 "unauthenticated".
Definition NotFound : error := googleapiError 404 "not found".
Definition Unavailable : error := googleapiError 503 "unavailable".

(** ** The payload type *)

(** [type FanConfig struct { On bool `json:"on"`; Speed int `json:"speed"` }] *)
Record FanConfig : Type := { On : bool; Speed : Z }.

Definition minInt : Z := - 2 ^ 63.
Definition maxInt : Z := 2 ^ 63 - 1.

(** A [FanConfig] the Go type can hold: [Speed] is an [int]. *)
Definition wf_FanConfig (c : FanConfig) : Prop :=
  minInt <= Speed c <= maxInt.

(** ** package encoding/json *)

Module json.

(** The values the encoder walks by reflection: the kinds [FanConfig] is
    made of, and two kinds JSON cannot represent. *)
Inductive value : Type :=
| Bool (b : bool)
| Int (i : Z)
| Struct (fs : fields)
| Chan
| Func
with fields : Type :=
| no_fields
| field (name : string) (v : value) (rest : fields).

(** A field name between double quotes, as the encoder precomputes it. *)
Definition quote (name : string) : string :=
  String dquote (name ++ String dquote "").

Fixpoint encodeValue (v : value) : string * option error :=
  match v with
  | Bool b => (if b then "true" else "false", None)
  | Int i => (strconv.FormatInt i, None)
  | Struct fs =>
      match encodeFields fs true with
      | (s, None) => ("{" ++ s ++ "}", None)
      | (_, Some e) => ("", Some e)
      end
  | Chan => ("", Some (UnsupportedTypeError "chan"))
  | Func => ("", Some (UnsupportedTypeError "func"))
  end
with encodeFields (fs : fields) (first : bool) : string * option error :=
  match fs with
  | no_fields => ("", None)
  | field name v rest =>
      match encodeValue v with
      | (sv, None) =>
          match encodeFields rest false with
          | (sr, None) =>
              ((if first then "" else ",") ++ quote name ++ ":" ++ sv ++ sr,
               None)
          | (_, Some e) => ("", Some e)
          end
      | (_, Some e) => ("", Some e)
      end
  end.

(** [json.Marshal]: the bytes and a nil error, or no bytes and the error. *)
Definition Marshal (v : value) : string * option error := encodeValue v.

(** What reflection sees of a [FanConfig]: its two tagged fields in
    declaration order. *)
Definition valueOf (c : FanConfig) : value :=
  Struct (field "on" (Bool (On c)) (field "speed" (Int (Speed c)) no_fields)).

Definition MarshalFanConfig (c : FanConfig) : string * option error :=
  Marshal (valueOf c).

End json.

(** ** The reading side of the transport encoding *)

Module Transport.

(** Modelled from the spec: the repository only encodes; the decoder of the
    round-trip property, base64-decode of the standard alphabet with [=]
    padding ([StdEncoding.DecodeString]), is written here from the
    specification's words. *)
Fixpoint indexOf (c : ascii) (alphabet : string) (i : Z) : Z :=
  match alphabet with
  | EmptyString => 255
  | String a rest => if Ascii.eqb c a then i else indexOf c rest (i + 1)
  end.

(** [enc.decodeMap[c]]: the index of [c] in the alphabet, [0xFF] outside. *)
Definition decodeMap (c : ascii) : Z := indexOf c b64.encodeStd 0.

Definition inAlphabet (c : ascii) : bool := decodeMap c <? 64.

Definition assemble (d0 d1 d2 d3 : Z) : Z :=
  Z.lor (Z.lor (Z.lor (Z.shiftl d0 18) (Z.shiftl d1 12)) (Z.shiftl d2 6)) d3.

Definition byteAt (val shift : Z) : ascii :=
  byteOf (Z.land (Z.shiftr val shift) 255).

(** Modelled from the spec: [StdEncoding.DecodeString], four characters
    to three bytes, the last group padded with one or two [=]. *)
Fixpoint DecodeString (s : string) : option string :=
  match s with
  | EmptyString => Some ""
  | String c0 (String c1 (String c2 (String c3 rest))) =>
      let d0 := decodeMap c0 in
      let d1 := decodeMap c1 in
      let d2 := decodeMap c2 in
      let d3 := decodeMap c3 in
      if Ascii.eqb c3 b64.StdPadding then
        match rest with
        | EmptyString =>
            if Ascii.eqb c2 b64.StdPadding then
              if (inAlphabet c0 && inAlphabet c1)%bool then
                Some (String (byteAt (assemble d0 d1 0 0) 16) "")
              else None
            else
              if (inAlphabet c0 && inAlphabet c1 && inAlphabet c2)%bool then
                let val := assemble d0 d1 d2 0 in
                Some (String (byteAt val 16) (String (byteAt val 8) ""))
              else None
        | String _ _ => None
        end
      else
        if (inAlphabet c0 && inAlphabet c1 && inAlphabet c2
            && inAlphabet c3)%bool then
          let val := assemble d0 d1 d2 d3 in
          match DecodeString rest with
          | Some out =>
              Some (String (byteAt val 16) (String (byteAt val 8)
                     (String (byteAt val 0) out)))
          | None => None
          end
        else None
  | _ => None
  end.

(** Modelled from the spec: deserialization of the canonical JSON bytes into
    a [FanConfig] ([json.Unmarshal] on an object without white space whose
    members are booleans and integers), absent from the repository. *)
Definition isDigit (c : ascii) : bool :=
  (48 <=? byteVal c) && (byteVal c <=? 57).

Fixpoint readDigits (s : string) (acc : Z) : Z * string :=
  match s with
  | EmptyString => (acc, "")
  | String c rest =>
      if isDigit c then readDigits rest (acc * 10 + (byteVal c - 48))
      else (acc, s)
  end.

Definition startsWithDigit (s : string) : bool :=
  match s with
  | EmptyString => false
  | String c _ => isDigit c
  end.

Definition readInt (s : string) : option (Z * string) :=
  match s with
  | String c rest =>
      if Ascii.eqb c "-" then
        if startsWithDigit rest then
          let (n, rest') := readDigits rest 0 in Some (- n, rest')
        else None
      else if isDigit c then Some (readDigits s 0)
      else None
  | EmptyString => None
  end.

Fixpoint expect (word s : string) : option string :=
  match word, s with
  | EmptyString, _ => Some s
  | String w word', String c s' =>
      if Ascii.eqb w c then expect word' s' else None
  | String _ _, EmptyString => None
  end.

Definition readValue (s : string) : option (json.value * string) :=
  match s with
  | String c _ =>
      if Ascii.eqb c "t" then
        option_map (fun r => (json.Bool true, r)) (expect "true" s)
      else if Ascii.eqb c "f" then
        option_map (fun r => (json.Bool false, r)) (expect "false" s)
      else option_map (fun '(n, r) => (json.Int n, r)) (readInt s)
  | EmptyString => None
  end.

(** The characters of a member name up to its closing quote. *)
Fixpoint readName (s : string) : option (string * string) :=
  match s with
  | EmptyString => None
  | String c rest =>
      if Ascii.eqb c dquote then Some ("", rest)
      else option_map (fun '(n, r) => (String c n, r)) (readName rest)
  end.

Definition readMember (s : string) : option (string * json.value * string) :=
  match s with
  | String c rest =>
      if Ascii.eqb c dquote then
        match readName rest with
        | Some (name, String colon rest') =>
            if Ascii.eqb colon ":" then
              option_map (fun '(v, r) => (name, v, r)) (readValue rest')
            else None
        | _ => None
        end
      else None
  | EmptyString => None
  end.

(** The members after the opening brace, up to and with the closing one.
    Every member takes at least one character, so the length of the input
    is fuel enough. *)
Fixpoint readMembers (fuel : nat) (s : string)
  : option (list (string * json.value) * string) :=
  match fuel with
  | O => None
  | S fuel' =>
      match readMember s with
      | Some (name, v, String c rest) =>
          if Ascii.eqb c "," then
            option_map (fun '(ms, r) => ((name, v) :: ms, r))
                       (readMembers fuel' rest)
          else if Ascii.eqb c "}" then Some ([(name, v)], rest)
          else None
      | _ => None
      end
  end.

Definition readObject (s : string) : option (list (string * json.value)) :=
  match s with
  | String c rest =>
      if Ascii.eqb c "{" then
        match rest with
        | String c' EmptyString =>
            if Ascii.eqb c' "}" then Some [] else None
        | _ =>
            match readMembers (String.length rest) rest with
            | Some (ms, EmptyString) => Some ms
            | _ => None
            end
        end
      else None
  | EmptyString => None
  end.

(** One member stored into the struct: a known name needs a value of the
    field's type (and an integer that fits an [int]); an unknown name is
    skipped. *)
Definition assign (c : FanConfig) (m : string * json.value)
  : option FanConfig :=
  let (name, v) := m in
  if String.eqb name "on" then
    match v with
    | json.Bool b => Some {| On := b; Speed := Speed c |}
    | _ => None
    end
  else if String.eqb name "speed" then
    match v with
    | json.Int i =>
        if (minInt <=? i) && (i <=? maxInt)
        then Some {| On := On c; Speed := i |} else None
    | _ => None
    end
  else Some c.

Fixpoint assignAll (c : FanConfig) (ms : list (string * json.value))
  : option FanConfig :=
  match ms with
  | [] => Some c
  | m :: rest =>
      match assign c m with
      | Some c' => assignAll c' rest
      | None => None
      end
  end.

(** Modelled from the spec: [json.Unmarshal(data, &cfg)] on a zero [cfg],
    the deserialization of the canonical JSON bytes. *)
Definition UnmarshalFanConfig (data : string) : option FanConfig :=
  match readObject data with
  | Some ms => assignAll {| On := false; Speed := 0 |} ms
  | None => None
  end.

(** The transport encoding of a payload, as both programs compute it. *)
Definition encodePayload (c : FanConfig) : string :=
  b64.EncodeToString (fst (json.MarshalFanConfig c)).

(** Modelled from the spec: decoding the transport encoding, "base64-decode,
    then deserialize the canonical JSON bytes". *)
Definition decodePayload (s : string) : option FanConfig :=
  match DecodeString s with
  | Some data => UnmarshalFanConfig data
  | None => None
  end.

End Transport.

(** ** The world outside the programs, and what a run leaves behind *)

(** The answers of the services the programs call: the error of
    [cloudiot.NewService(ctx)], and the error of the [k]-th [call.Do()] of a
    run, which may depend on the device path and on the data sent. *)
Record World : Type := {
  NewService_err : option error;
  Do_err : nat -> string -> string -> option error
}.

(** The observable effects, in the order they happen. *)
Inductive event : Type :=
| Stdout (text : string)
| RemoteCall (name : string) (binaryData : string)
| WriteHeader (statusCode : Z)
| Write (body : string).

Definition trace : Type := list event.

(** A statement either falls through to the next one or executes [return]. *)
Inductive flow (A : Type) : Type :=
| Next (a : A)
| Returned.

Arguments Next {A} a.
Arguments Returned {A}.

Definition Go (A : Type) : Type := World -> trace -> flow A * trace.

Definition ret {A : Type} (a : A) : Go A := fun _ t => (Next a, t).

Definition bind {A B : Type} (m : Go A) (k : A -> Go B) : Go B :=
  fun w t =>
    match m w t with
    | (Next a, t') => k a w t'
    | (Returned, t') => (Returned, t')
    end.

Definition return_ {A : Type} : Go A := fun _ t => (Returned, t).

Definition emit (e : event) : Go unit := fun _ t => (Next tt, (t ++ [e])%list).

Notation "x <- m ;; k" := (bind m (fun x => k))
  (at level 61, m at next level, right associativity).
Notation "' pat <- m ;; k" := (bind m (fun x => match x with pat => k end))
  (at level 61, pat pattern, m at next level, right associativity).
Notation "m ;; k" := (bind m (fun _ => k))
  (at level 61, right associativity).

(** [if err != nil { body }] *)
Definition if_not_nil (err : option error) (body : error -> Go unit)
  : Go unit :=
  match err with
  | Some e => body e
  | None => ret tt
  end.

Definition run (p : Go unit) (w : World) : trace := snd (p w []).

Fixpoint remoteCalls (t : trace) : list (string * string) :=
  match t with
  | [] => []
  | RemoteCall name data :: t' => (name, data) :: remoteCalls t'
  | _ :: t' => remoteCalls t'
  end.

Fixpoint printed (t : trace) : list string :=
  match t with
  | [] => []
  | Stdout text :: t' => text :: printed t'
  | _ :: t' => printed t'
  end.

(** What the handler did to its [http.ResponseWriter]. *)
Fixpoint response (t : trace) : trace :=
  match t with
  | [] => []
  | WriteHeader code :: t' => WriteHeader code :: response t'
  | Write body :: t' => Write body :: response t'
  | _ :: t' => response t'
  end.

(** ** package cloudiot and the other calls with effects *)

Module context.

(** A context carries deadlines and cancellation; the programs only make
    the empty one. *)
Inductive Context : Type := Background.

End context.

Module cloudiot.

Inductive Service : Type := service.
Inductive ProjectsLocationsRegistriesDevicesService : Type :=
| devicesService (s : Service).

Record ModifyCloudToDeviceConfigRequest : Type := { BinaryData : string }.

Record ModifyCloudToDeviceConfigCall : Type := {
  name : string;
  modifycloudtodeviceconfigrequest : ModifyCloudToDeviceConfigRequest
}.

Definition NewService (ctx : context.Context)
  : Go (Service * option error) :=
  fun w t => (Next (service, NewService_err w), t).

Definition NewProjectsLocationsRegistriesDevicesService (s : Service)
  : ProjectsLocationsRegistriesDevicesService := devicesService s.

Definition ModifyCloudToDeviceConfig
  (r : ProjectsLocationsRegistriesDevicesService) (name : string)
  (req : ModifyCloudToDeviceConfigRequest) : ModifyCloudToDeviceConfigCall :=
  {| name := name; modifycloudtodeviceconfigrequest := req |}.

(** [call.Context(ctx)] returns the call, bound to the context. *)
Definition Context (c : ModifyCloudToDeviceConfigCall)
  (ctx : context.Context) : ModifyCloudToDeviceConfigCall := c.

(** [call.Do()]: the request goes out, and the world answers the call by
    its rank among the remote calls of the run. *)
Definition Do (c : ModifyCloudToDeviceConfigCall) : Go (option error) :=
  fun w t =>
    let data := BinaryData (modifycloudtodeviceconfigrequest c) in
    (Next (Do_err w (List.length (remoteCalls t)) (name c) data),
     (t ++ [RemoteCall (name c) data])%list).

End cloudiot.

Definition Printf (format : string) (args : list string) : Go unit :=
  emit (Stdout (fmt.Sprintf format args)).

(** [fmt.Printf("%v\n", err)] *)
Definition print_error (err : error) : Go unit :=
  Printf ("%v" ++ String newline "") [Error err].

Module http.

Definition StatusOK : Z := 200.
Definition StatusInternalServerError : Z := 500.

(** What a handler could read of an [*http.Request]. *)
Record Request : Type := {
  Method : string;
  URL : string;
  Header : list (string * string);
  Body : string
}.

End http.

(** ** The two programs *)

(** The four identifying strings of a device. *)
Record DeviceAddress : Type := {
  projectID : string;
  location : string;
  registryID : string;
  deviceID : string
}.

(** [main.go], line 45. *)
Definition devicePath (a : DeviceAddress) : string :=
  fmt.Sprintf "projects/%s/locations/%s/registries/%s/devices/%s"
    [projectID a; location a; registryID a; deviceID a].

(** The placeholders the tutorial leaves in the source. *)
Definition placeholders : DeviceAddress := {|
  projectID := "YOUR-GCP-PROJECT-ID";
  location := "REGISTRY-LOCATION";
  registryID := "REGISTRY-ID";
  deviceID := "DEVICE-ID"
|}.

Section Programs.

(** [json.Marshal] at the type [FanConfig]. *)
Variable json_Marshal : FanConfig -> string * option error.

(** The body of [main], for the device the four strings name. *)
Definition main_at (a : DeviceAddress) : Go unit :=
  let ctx := context.Background in
  '(service, err) <- cloudiot.NewService ctx ;;
  if_not_nil err (fun e => print_error e ;; return_) ;;
  let deviceService :=
    cloudiot.NewProjectsLocationsRegistriesDevicesService service in
  let sunnyConfigData := {| On := true; Speed := 40 |} in
  let '(bytes, err) := json_Marshal sunnyConfigData in
  if_not_nil err (fun e => print_error e ;; return_) ;;
  let encodedString := b64.EncodeToString bytes in
  let configRequest := {| cloudiot.BinaryData := encodedString |} in
  let devicePath := devicePath a in
  let call :=
    cloudiot.ModifyCloudToDeviceConfig deviceService devicePath configRequest in
  let _ := cloudiot.Context call ctx in
  err <- cloudiot.Do call ;;
  if_not_nil err (fun e => print_error e).

(** [func UpdateWeather(w http.ResponseWriter, r *http.Request)] *)
Definition UpdateWeather_with (r : http.Request) : Go unit :=
  let ctx := context.Background in
  '(service, err) <- cloudiot.NewService ctx ;;
  if_not_nil err (fun e => print_error e ;; return_) ;;
  let deviceService :=
    cloudiot.NewProjectsLocationsRegistriesDevicesService service in
  let sunnyConfigData := {| On := true; Speed := 20 |} in
  let '(bytes, err) := json_Marshal sunnyConfigData in
  if_not_nil err (fun e => print_error e ;; return_) ;;
  let encodedString := b64.EncodeToString bytes in
  let configRequest := {| cloudiot.BinaryData := encodedString |} in
  let projectID := "YOUR-GCP-PROJECT-ID" in
  let location := "REGISTRY-LOCATION" in
  let registryID := "REGISTRY-ID" in
  let deviceID := "DEVICE-ID" in
  let devicePath :=
    fmt.Sprintf "projects/%s/locations/%s/registries/%s/devices/%s"
      [projectID; location; registryID; deviceID] in
  let call :=
    cloudiot.ModifyCloudToDeviceConfig deviceService devicePath configRequest in
  let _ := cloudiot.Context call ctx in
  err <- cloudiot.Do call ;;
  if_not_nil err (fun e =>
    print_error e ;;
    emit (WriteHeader http.StatusInternalServerError) ;;
    emit (Write "500 - Something bad happened!") ;;
    return_) ;;
  emit (WriteHeader http.StatusOK) ;;
  emit (Write "Success!").

End Programs.

(** The programs as they are linked, with the encoder of [encoding/json]. *)
Definition main : Go unit := main_at json.MarshalFanConfig placeholders.

Definition UpdateWeather (r : http.Request) : Go unit :=
  UpdateWeather_with json.MarshalFanConfig r.

(** ** Notions of the specification *)

(** Modelled from the spec: a character legal in a resource path segment.
    The programs check nothing of the kind; the specification's contract of
    [resolve] speaks of it.  Legal here is a printable ASCII character
    other than the separators [/], [?], [#] and the escape [%]. *)
Definition segmentChar (c : ascii) : bool :=
  (32 <? byteVal c) && (byteVal c <? 127)
  && negb (Ascii.eqb c "/") && negb (Ascii.eqb c "?")
  && negb (Ascii.eqb c "#") && negb (Ascii.eqb c "%").

Fixpoint pathSafe (s : string) : bool :=
  match s with
  | EmptyString => true
  | String c rest => segmentChar c && pathSafe rest
  end.

Definition validField (s : string) : bool :=
  negb (String.eqb s "") && pathSafe s.

(** A [DeviceAddress] with four non-empty, path-safe fields. *)
Definition validAddress (a : DeviceAddress) : bool :=
  validField (projectID a) && validField (location a)
  && validField (registryID a) && validField (deviceID a).

(** The outcome of the specification's [resolve(DeviceAddress)]: a path, or
    the failure [InvalidAddressError]. *)
Inductive Resolution : Type :=
| Resolved (path : string)
| InvalidAddressError.

(** Path resolution as the programs perform it, in the type of that
    contract: the [Sprintf] of line 45 has no error result. *)
Definition resolve (a : DeviceAddress) : Resolution := Resolved (devicePath a).

(** The path the specification writes
    [projects/{p}/locations/{l}/registries/{r}/devices/{d}]. *)
Definition pathOf (p l r d : string) : string :=
  "projects/" ++ p ++ "/locations/" ++ l ++ "/registries/" ++ r
  ++ "/devices/" ++ d.

(** A text names a word when the word occurs in it. *)
Definition mentions (word text : string) : bool :=
  match String.index 0 word text with
  | Some _ => true
  | None => false
  end.

(** Modelled from the spec: the retry policy's default number of attempts
    ("configurable max attempts, default 3"); the programs have no such
    setting. *)
Definition defaultMaxAttempts : nat := 3.

(** The text [{"on":true,"speed":n}] for a decimal numeral [n]. *)
Definition fanJSON (on : bool) (speed : string) : string :=
  "{" ++ json.quote "on" ++ ":" ++ (if on then "true" else "false") ++ ","
  ++ json.quote "speed" ++ ":" ++ speed ++ "}".

(** The line [fmt.Printf("%v\n", err)] prints. *)
Definition error_line (e : error) : event :=
  Stdout (Error e ++ String newline "").

(** The two payloads the programs send. *)
Definition sunny40 : FanConfig := {| On := true; Speed := 40 |}.
Definition sunny20 : FanConfig := {| On := true; Speed := 20 |}.

(** ** Worlds, addresses and requests to run the programs on *)

(** The client is built and the registry accepts every call. *)
Definition accepting : World :=
  {| NewService_err := None; Do_err := fun _ _ _ => None |}.

(** The client is built and the registry is unavailable at every call. *)
Definition alwaysUnavailable : World :=
  {| NewService_err := None; Do_err := fun _ _ _ => Some Unavailable |}.

(** No credentials: the client cannot be built. *)
Definition noCredentials : World :=
  {| NewService_err :=
       Some (errorString "google: could not find default credentials");
     Do_err := fun _ _ _ => None |}.

(** A marshaler that fails, as [json.Marshal] does on a channel. *)
Definition failingMarshal (c : FanConfig) : string * option error :=
  json.Marshal json.Chan.

Definition scenarioAddress : DeviceAddress := {|
  projectID := "proj1";
  location := "us-central1";
  registryID := "reg1";
  deviceID := "dev1"
|}.

Definition emptyProject : DeviceAddress := {|
  projectID := "";
  location := "loc";
  registryID := "reg";
  deviceID := "dev"
|}.

(** A device name with a separator in it. *)
Definition slashDevice : DeviceAddress := {|
  projectID := "proj1";
  location := "loc";
  registryID := "reg";
  deviceID := "a/b"
|}.

Definition getRequest : http.Request := {|
  http.Method := "GET";
  http.URL := "/UpdateWeather";
  http.Header := [];
  http.Body := ""
|}.

Definition postRequest : http.Request := {|
  http.Method := "POST";
  http.URL := "/UpdateWeather";
  http.Header := [("Content-Type", "application/json")];
  http.Body := fanJSON false "99"
|}.

(** ** Notions for the further properties *)


(** No path separator in a string, and the number of separators. *)
Fixpoint slashFree (s : string) : bool :=
  match s with
  | EmptyString => true
  | String c rest => negb (Ascii.eqb c "/") && slashFree rest
  end.

Fixpoint countSlash (s : string) : nat :=
  match s with
  | EmptyString => O
  | String c rest =>
      if Ascii.eqb c "/" then S (countSlash rest) else countSlash rest
  end.

(** Every character of a string passes a test. *)
Fixpoint allOf (p : ascii -> bool) (s : string) : bool :=
  match s with
  | EmptyString => true
  | String c rest => p c && allOf p rest
  end.

(** A character of the base64 alphabet [encodeStd]. *)
Definition alphabetChar (c : ascii) : bool :=
  existsb (Ascii.eqb c) (list_ascii_of_string b64.encodeStd).

(** The padding that closes the encoding of [n] bytes. *)
Definition padding (n : nat) : string :=
  match Nat.modulo n 3 with
  | 0%nat => ""
  | 1%nat => "=="
  | _ => "="
  end.




(** * Properties *)

(** ** Formatting *)

Lemma append_empty_r (s : string) : s ++ "" = s.
Proof. induction s as [|c s IH]; simpl; [reflexivity | now rewrite IH]. Qed.

Lemma append_assoc (s1 s2 s3 : string) : (s1 ++ s2) ++ s3 = s1 ++ (s2 ++ s3).
Proof. induction s1 as [|c s1 IH]; simpl; [reflexivity | now rewrite IH]. Qed.

Lemma devicePath_pathOf (a : DeviceAddress) :
  devicePath a = pathOf (projectID a) (location a) (registryID a) (deviceID a).
Proof.
  unfold devicePath, pathOf. cbn.
  now rewrite (append_empty_r (deviceID a)).
Qed.

Lemma print_error_text (e : error) (w : World) (t : trace) :
  print_error e w t = (Next tt, (t ++ [error_line e])%list).
Proof. reflexivity. Qed.

(** ** The runs of the two programs *)

(** Every run of [main_at], by the answers it gets. *)
Lemma main_at_run marshal (a : DeviceAddress) (w : World) :
  run (main_at marshal a) w =
  match NewService_err w with
  | Some e => [error_line e]
  | None =>
      match marshal {| On := true; Speed := 40 |} with
      | (_, Some e) => [error_line e]
      | (bytes, None) =>
          let data := b64.EncodeToString bytes in
          RemoteCall (devicePath a) data ::
          match Do_err w 0%nat (devicePath a) data with
          | Some e => [error_line e]
          | None => []
          end
      end
  end.
Proof.
  unfold run, main_at, bind, cloudiot.NewService. cbn.
  destruct (NewService_err w) as [e|]; cbn; [reflexivity|].
  destruct (marshal _) as [bytes [e|]]; cbn; [reflexivity|].
  destruct (Do_err w 0%nat _ _) as [e|]; reflexivity.
Qed.

(** Every run of the handler, by the answers it gets. *)
Lemma UpdateWeather_with_run marshal (r : http.Request) (w : World) :
  run (UpdateWeather_with marshal r) w =
  match NewService_err w with
  | Some e => [error_line e]
  | None =>
      match marshal {| On := true; Speed := 20 |} with
      | (_, Some e) => [error_line e]
      | (bytes, None) =>
          let data := b64.EncodeToString bytes in
          RemoteCall (devicePath placeholders) data ::
          match Do_err w 0%nat (devicePath placeholders) data with
          | Some e =>
              [error_line e; WriteHeader 500;
               Write "500 - Something bad happened!"]
          | None => [WriteHeader 200; Write "Success!"]
          end
      end
  end.
Proof.
  unfold run, UpdateWeather_with, bind, cloudiot.NewService. cbn.
  destruct (NewService_err w) as [e|]; cbn; [reflexivity|].
  destruct (marshal _) as [bytes [e|]]; cbn; [reflexivity|].
  destruct (Do_err w 0%nat _ _) as [e|]; reflexivity.
Qed.

(** ** Marshaling a [FanConfig] *)

Lemma append_cons (c : ascii) (s1 s2 : string) :
  String c s1 ++ s2 = String c (s1 ++ s2).
Proof. reflexivity. Qed.

Lemma MarshalFanConfig_bytes (c : FanConfig) :
  json.MarshalFanConfig c =
  (fanJSON (On c) (strconv.FormatInt (Speed c)), None).
Proof.
  unfold json.MarshalFanConfig, json.Marshal, json.valueOf, fanJSON.
  cbn [json.encodeValue json.encodeFields].
  f_equal.
  destruct (On c); cbn -[strconv.FormatInt];
    now rewrite append_empty_r.
Qed.

(** ** Bytes *)

Lemma byteVal_range (c : ascii) : 0 <= byteVal c < 256.
Proof.
  unfold byteVal. pose proof (N_ascii_bounded c). lia.
Qed.

Lemma byteOf_byteVal (c : ascii) : byteOf (byteVal c) = c.
Proof.
  unfold byteOf, byteVal. now rewrite N2Z.id, ascii_N_embedding.
Qed.

Lemma byteVal_byteOf (z : Z) : 0 <= z < 256 -> byteVal (byteOf z) = z.
Proof.
  intros Hz. unfold byteOf, byteVal.
  rewrite N_ascii_embedding by lia. lia.
Qed.

(** ** Base64: decoding what was encoded *)

Lemma lor_disjoint (a lo k : Z) :
  0 <= k -> 0 <= lo < 2 ^ k -> a mod 2 ^ k = 0 -> Z.lor a lo = a + lo.
Proof.
  intros Hk Hlo Ha.
  assert (Hland : Z.land a lo = 0).
  { apply Z.bits_inj'. intros n Hn.
    rewrite Z.land_spec, Z.bits_0.
    destruct (Z.ltb_spec n k) as [Hlt|Hge].
    - rewrite <- (Z.mod_pow2_bits_low a k n Hlt), Ha, Z.bits_0. reflexivity.
    - rewrite <- (Z.mod_small lo (2 ^ k)) by lia.
      rewrite Z.mod_pow2_bits_high by lia. apply andb_false_r. }
  now rewrite Z.add_nocarry_lxor, Z.lxor_lor.
Qed.

Lemma land_shiftr_63 (v s : Z) :
  0 <= s -> Z.land (Z.shiftr v s) 63 = (v / 2 ^ s) mod 64.
Proof.
  intros Hs. change 63 with (Z.ones 6).
  rewrite Z.land_ones by lia. now rewrite Z.shiftr_div_pow2.
Qed.

Lemma land_shiftr_255 (v s : Z) :
  0 <= s -> Z.land (Z.shiftr v s) 255 = (v / 2 ^ s) mod 256.
Proof.
  intros Hs. change 255 with (Z.ones 8).
  rewrite Z.land_ones by lia. now rewrite Z.shiftr_div_pow2.
Qed.

(** The three bytes of a group, as a number. *)
Lemma group_value (b0 b1 b2 : Z) :
  0 <= b0 < 256 -> 0 <= b1 < 256 -> 0 <= b2 < 256 ->
  Z.lor (Z.lor (Z.shiftl b0 16) (Z.shiftl b1 8)) b2
  = b0 * 65536 + b1 * 256 + b2.
Proof.
  intros H0 H1 H2.
  rewrite !Z.shiftl_mul_pow2 by lia.
  change (2 ^ 16) with 65536. change (2 ^ 8) with 256.
  rewrite (lor_disjoint (b0 * 65536) (b1 * 256) 16); try lia.
  - rewrite (lor_disjoint _ b2 8); try lia.
    change (2 ^ 8) with 256.
    replace (b0 * 65536 + b1 * 256) with ((b0 * 256 + b1) * 256) by lia.
    apply Z.mod_mul. lia.
  - change (2 ^ 16) with 65536. apply Z.mod_mul. lia.
Qed.

(** The four sextets of a group, put together again. *)
Lemma assemble_value (d0 d1 d2 d3 : Z) :
  0 <= d0 < 64 -> 0 <= d1 < 64 -> 0 <= d2 < 64 -> 0 <= d3 < 64 ->
  Transport.assemble d0 d1 d2 d3 = d0 * 262144 + d1 * 4096 + d2 * 64 + d3.
Proof.
  intros H0 H1 H2 H3. unfold Transport.assemble.
  rewrite !Z.shiftl_mul_pow2 by lia.
  change (2 ^ 18) with 262144. change (2 ^ 12) with 4096.
  change (2 ^ 6) with 64.
  rewrite (lor_disjoint (d0 * 262144) (d1 * 4096) 18); try lia.
  2:{ change (2 ^ 18) with 262144. apply Z.mod_mul. lia. }
  rewrite (lor_disjoint _ (d2 * 64) 12); try lia.
  2:{ change (2 ^ 12) with 4096.
      replace (d0 * 262144 + d1 * 4096) with ((d0 * 64 + d1) * 4096) by lia.
      apply Z.mod_mul. lia. }
  rewrite (lor_disjoint _ d3 6); try lia.
  change (2 ^ 6) with 64.
  replace (d0 * 262144 + d1 * 4096 + d2 * 64)
    with ((d0 * 4096 + d1 * 64 + d2) * 64) by lia.
  apply Z.mod_mul. lia.
Qed.

(** Cutting a 24-bit number into sextets and putting them together gives
    the number back. *)
Lemma sextets_value (v : Z) :
  0 <= v < 16777216 ->
  (v / 2 ^ 18) mod 64 * 262144 + (v / 2 ^ 12) mod 64 * 4096
  + (v / 2 ^ 6) mod 64 * 64 + (v / 2 ^ 0) mod 64 = v.
Proof.
  intros Hv.
  change (2 ^ 18) with 262144. change (2 ^ 12) with 4096.
  change (2 ^ 6) with 64. change (2 ^ 0) with 1.
  Z.div_mod_to_equations. lia.
Qed.

Lemma alphabet_table :
  forallb (fun n =>
             let c := b64.encode (Z.of_nat n) in
             (Transport.decodeMap c =? Z.of_nat n)
             && negb (Ascii.eqb c b64.StdPadding))
          (seq 0 64) = true.
Proof. vm_compute. reflexivity. Qed.

Lemma encode_decodeMap (i : Z) :
  0 <= i < 64 ->
  Transport.decodeMap (b64.encode i) = i
  /\ Ascii.eqb (b64.encode i) b64.StdPadding = false.
Proof.
  intros Hi.
  pose proof alphabet_table as T. rewrite forallb_forall in T.
  specialize (T (Z.to_nat i)).
  rewrite Z2Nat.id in T by lia.
  assert (Hin : In (Z.to_nat i) (seq 0 64)) by (apply in_seq; lia).
  apply T in Hin. cbv zeta in Hin.
  apply andb_true_iff in Hin. destruct Hin as [Hd Hp].
  split; [lia | now apply negb_true_iff].
Qed.

Lemma sextet_decode (v s : Z) :
  0 <= s ->
  Transport.decodeMap (b64.sextet v s) = (v / 2 ^ s) mod 64
  /\ Ascii.eqb (b64.sextet v s) b64.StdPadding = false
  /\ Transport.inAlphabet (b64.sextet v s) = true.
Proof.
  intros Hs. unfold b64.sextet, Transport.inAlphabet.
  rewrite land_shiftr_63 by assumption.
  assert (Hr : 0 <= (v / 2 ^ s) mod 64 < 64) by (apply Z.mod_pos_bound; lia).
  destruct (encode_decodeMap _ Hr) as [Hd Hp].
  rewrite Hd. repeat split; [assumption | lia].
Qed.

Lemma group_bytes (b0 b1 b2 : Z) :
  0 <= b0 < 256 -> 0 <= b1 < 256 -> 0 <= b2 < 256 ->
  let v := b0 * 65536 + b1 * 256 + b2 in
  0 <= v < 16777216
  /\ (v / 2 ^ 16) mod 256 = b0
  /\ (v / 2 ^ 8) mod 256 = b1
  /\ (v / 2 ^ 0) mod 256 = b2.
Proof.
  intros H0 H1 H2 v. subst v.
  change (2 ^ 16) with 65536. change (2 ^ 8) with 256.
  change (2 ^ 0) with 1.
  repeat split; try lia; Z.div_mod_to_equations; lia.
Qed.

(** The sextets of a 24-bit number decode, and assemble to the number. *)
Lemma sextets_assemble (v : Z) :
  0 <= v < 16777216 ->
  Transport.assemble
    (Transport.decodeMap (b64.sextet v 18))
    (Transport.decodeMap (b64.sextet v 12))
    (Transport.decodeMap (b64.sextet v 6))
    (Transport.decodeMap (b64.sextet v 0)) = v.
Proof.
  intros Hv.
  destruct (sextet_decode v 18) as [-> _]; [lia|].
  destruct (sextet_decode v 12) as [-> _]; [lia|].
  destruct (sextet_decode v 6) as [-> _]; [lia|].
  destruct (sextet_decode v 0) as [-> _]; [lia|].
  rewrite assemble_value by (apply Z.mod_pos_bound; lia).
  now apply sextets_value.
Qed.

Lemma byteAt_group (b0 b1 b2 : ascii) :
  let v := b64.group b0 b1 b2 in
  0 <= v < 16777216
  /\ Transport.byteAt v 16 = b0
  /\ Transport.byteAt v 8 = b1
  /\ Transport.byteAt v 0 = b2.
Proof.
  intros v. subst v. unfold b64.group, Transport.byteAt.
  pose proof (byteVal_range b0) as H0.
  pose proof (byteVal_range b1) as H1.
  pose proof (byteVal_range b2) as H2.
  rewrite group_value by assumption.
  rewrite !land_shiftr_255 by lia.
  destruct (group_bytes _ _ _ H0 H1 H2) as (Hv & E0 & E1 & E2).
  rewrite E0, E1, E2, !byteOf_byteVal. auto.
Qed.

Lemma decode_group (b0 b1 b2 : ascii) (enc out : string) :
  Transport.DecodeString enc = Some out ->
  let v := b64.group b0 b1 b2 in
  Transport.DecodeString
    (String (b64.sextet v 18) (String (b64.sextet v 12)
      (String (b64.sextet v 6) (String (b64.sextet v 0) enc))))
  = Some (String b0 (String b1 (String b2 out))).
Proof.
  intros Henc v.
  destruct (byteAt_group b0 b1 b2) as (Hv & E0 & E1 & E2). fold v in Hv, E0, E1, E2.
  cbn [Transport.DecodeString].
  destruct (sextet_decode v 18) as (_ & _ & ->); [lia|].
  destruct (sextet_decode v 12) as (_ & _ & ->); [lia|].
  destruct (sextet_decode v 6) as (_ & _ & ->); [lia|].
  destruct (sextet_decode v 0) as (_ & -> & ->); [lia|].
  cbn [andb]. rewrite Henc, sextets_assemble by assumption.
  now rewrite E0, E1, E2.
Qed.

(** A remainder of two bytes is a group whose last byte is zero, cut after
    the third sextet. *)
Lemma decode_pair (b0 b1 : ascii) :
  let v := Z.lor (Z.shiftl (byteVal b0) 16) (Z.shiftl (byteVal b1) 8) in
  Transport.DecodeString
    (String (b64.sextet v 18) (String (b64.sextet v 12)
      (String (b64.sextet v 6) (String b64.StdPadding ""))))
  = Some (String b0 (String b1 "")).
Proof.
  intros v.
  pose proof (byteVal_range b0) as H0.
  pose proof (byteVal_range b1) as H1.
  assert (Ev : v = byteVal b0 * 65536 + byteVal b1 * 256).
  { subst v. rewrite <- (Z.lor_0_r (Z.lor _ _)).
    rewrite group_value by lia. lia. }
  cbn [Transport.DecodeString].
  change (Ascii.eqb b64.StdPadding b64.StdPadding) with true. cbv iota.
  destruct (sextet_decode v 18) as (D0 & _ & ->); [lia|].
  destruct (sextet_decode v 12) as (D1 & _ & ->); [lia|].
  destruct (sextet_decode v 6) as (D2 & -> & ->); [lia|].
  cbn [andb]. rewrite D0, D1, D2.
  rewrite assemble_value by (try apply Z.mod_pos_bound; lia).
  unfold Transport.byteAt. rewrite !land_shiftr_255 by lia.
  clearbody v.
  rewrite <- (byteOf_byteVal b0), <- (byteOf_byteVal b1).
  do 3 f_equal; [| f_equal; f_equal ]; rewrite Ev;
    change (2 ^ 18) with 262144; change (2 ^ 12) with 4096;
    change (2 ^ 6) with 64; change (2 ^ 16) with 65536;
    change (2 ^ 8) with 256; Z.div_mod_to_equations; lia.
Qed.

(** A remainder of one byte gives two sextets. *)
Lemma decode_single (b0 : ascii) :
  let v := Z.shiftl (byteVal b0) 16 in
  Transport.DecodeString
    (String (b64.sextet v 18) (String (b64.sextet v 12)
      (String b64.StdPadding (String b64.StdPadding ""))))
  = Some (String b0 "").
Proof.
  intros v.
  pose proof (byteVal_range b0) as H0.
  assert (Ev : v = byteVal b0 * 65536).
  { subst v. rewrite Z.shiftl_mul_pow2 by lia. reflexivity. }
  cbn [Transport.DecodeString].
  change (Ascii.eqb b64.StdPadding b64.StdPadding) with true. cbv iota.
  destruct (sextet_decode v 18) as (D0 & _ & ->); [lia|].
  destruct (sextet_decode v 12) as (D1 & _ & ->); [lia|].
  cbn [andb]. rewrite D0, D1.
  rewrite assemble_value by (try apply Z.mod_pos_bound; lia).
  unfold Transport.byteAt. rewrite !land_shiftr_255 by lia.
  clearbody v.
  rewrite <- (byteOf_byteVal b0).
  do 3 f_equal; rewrite Ev;
    change (2 ^ 18) with 262144; change (2 ^ 12) with 4096;
    change (2 ^ 16) with 65536; Z.div_mod_to_equations; lia.
Qed.

(** Induction on a string three characters at a time. *)
Lemma string_triples_ind (P : string -> Prop) :
  P "" ->
  (forall a, P (String a "")) ->
  (forall a b, P (String a (String b ""))) ->
  (forall a b c s, P s -> P (String a (String b (String c s)))) ->
  forall s, P s.
Proof.
  intros H0 H1 H2 H3 s.
  assert (H : P s /\ (forall a, P (String a s))
              /\ (forall a b, P (String a (String b s)))).
  { induction s as [|c s (IH0 & IH1 & IH2)].
    - auto.
    - repeat split; auto. }
  apply H.
Qed.

Lemma DecodeString_EncodeToString (s : string) :
  Transport.DecodeString (b64.EncodeToString s) = Some s.
Proof.
  induction s as [| a | a b | a b c s IH] using string_triples_ind.
  - reflexivity.
  - apply decode_single.
  - apply decode_pair.
  - cbn [b64.EncodeToString]. now apply decode_group.
Qed.

(** ** Decimal numerals: reading what was printed *)

Lemma digit_props (d : Z) :
  0 <= d < 10 ->
  Transport.isDigit (strconv.digit d) = true
  /\ byteVal (strconv.digit d) - 48 = d.
Proof.
  intros Hd. unfold Transport.isDigit, strconv.digit.
  rewrite byteVal_byteOf by lia. split; lia.
Qed.

Lemma formatBits_acc (fuel : nat) :
  forall u acc,
    strconv.formatBits fuel u acc = strconv.formatBits fuel u "" ++ acc.
Proof.
  induction fuel as [|fuel IH]; intros u acc; cbn [strconv.formatBits].
  - reflexivity.
  - destruct (u <? 10); [reflexivity|].
    rewrite (IH _ (String _ acc)), (IH _ (String _ "")).
    now rewrite append_assoc.
Qed.

(** Reading the digits [formatBits] wrote continues from the number they
    denote: with [k] digits written, an earlier value moves [k] places. *)
Lemma readDigits_formatBits (fuel : nat) :
  forall u, 0 <= u < 10 ^ Z.of_nat fuel ->
  exists k, 0 <= k /\
    forall acc n0,
      Transport.readDigits (strconv.formatBits fuel u acc) n0
      = Transport.readDigits acc (n0 * 10 ^ k + u).
Proof.
  induction fuel as [|fuel IH]; intros u Hu.
  - change (10 ^ Z.of_nat 0) with 1 in Hu. exists 0. split; [lia|].
    intros acc n0. cbn [strconv.formatBits]. f_equal. lia.
  - cbn [strconv.formatBits]. destruct (Z.ltb_spec u 10) as [Hlt|Hge].
    + exists 1. split; [lia|]. intros acc n0.
      cbn [Transport.readDigits].
      destruct (digit_props u) as [-> ->]; [lia|]. f_equal; lia.
    + rewrite Nat2Z.inj_succ, Z.pow_succ_r in Hu by lia.
      destruct (IH (u / 10)) as (k & Hk & Hread).
      { split; [apply Z.div_pos; lia|].
        apply Z.div_lt_upper_bound; lia. }
      exists (k + 1). split; [lia|]. intros acc n0.
      rewrite Hread. cbn [Transport.readDigits].
      destruct (digit_props (u mod 10)) as [-> ->];
        [apply Z.mod_pos_bound; lia|].
      f_equal. rewrite Z.pow_add_r by lia. change (10 ^ 1) with 10.
      pose proof (Z.div_mod u 10). lia.
Qed.

Lemma formatBits_head (fuel : nat) :
  forall u acc, (0 < fuel)%nat -> 0 <= u ->
  exists c rest,
    strconv.formatBits fuel u acc = String c rest
    /\ Transport.isDigit c = true.
Proof.
  induction fuel as [|fuel IH]; intros u acc Hfuel Hu; [lia|].
  cbn [strconv.formatBits]. destruct (Z.ltb_spec u 10) as [Hlt|Hge].
  - eexists _, _. split; [reflexivity|]. apply digit_props. lia.
  - destruct fuel as [|fuel].
    + eexists _, _. split; [reflexivity|].
      apply digit_props. apply Z.mod_pos_bound. lia.
    + apply IH; [lia|]. apply Z.div_pos; lia.
Qed.

(** The unsigned magnitude [FormatInt] prints is the absolute value. *)
Lemma FormatInt_magnitude (i : Z) :
  minInt <= i <= maxInt ->
  strconv.FormatInt i =
  if i <? 0 then String "-" (strconv.formatBits strconv.bufferLen (- i) "")
  else strconv.formatBits strconv.bufferLen i "".
Proof.
  unfold minInt, maxInt, strconv.FormatInt, strconv.uint64.
  change (2 ^ 63) with 9223372036854775808.
  change (2 ^ 64) with 18446744073709551616. intros Hi.
  destruct (Z.ltb_spec i 0) as [Hneg|Hpos].
  - do 2 f_equal. Z.div_mod_to_equations. lia.
  - f_equal. Z.div_mod_to_equations. lia.
Qed.

Lemma readDigits_stop (rest : string) (n : Z) :
  Transport.startsWithDigit rest = false ->
  Transport.readDigits rest n = (n, rest).
Proof.
  destruct rest as [|c rest]; cbn; [reflexivity|]. now intros ->.
Qed.

Lemma magnitude_fits (u : Z) :
  0 <= u <= 2 ^ 63 -> 0 <= u < 10 ^ Z.of_nat strconv.bufferLen.
Proof.
  intros Hu. split; [lia|].
  apply Z.le_lt_trans with (2 ^ 63); [lia|]. now vm_compute.
Qed.

(** Reading the digits of a magnitude, whatever follows that is no digit. *)
Lemma readDigits_magnitude (u : Z) (rest : string) :
  0 <= u <= 2 ^ 63 ->
  Transport.startsWithDigit rest = false ->
  Transport.readDigits (strconv.formatBits strconv.bufferLen u "" ++ rest) 0
  = (u, rest)
  /\ Transport.startsWithDigit
       (strconv.formatBits strconv.bufferLen u "" ++ rest) = true.
Proof.
  intros Hu Hrest. rewrite <- formatBits_acc. split.
  - destruct (readDigits_formatBits strconv.bufferLen u (magnitude_fits u Hu))
      as (k & _ & ->).
    rewrite readDigits_stop by assumption. f_equal; lia.
  - destruct (formatBits_head strconv.bufferLen u rest) as (c & r & -> & Hc);
      [unfold strconv.bufferLen; lia | lia | exact Hc].
Qed.

Lemma isDigit_not (c other : ascii) :
  Transport.isDigit c = true -> Transport.isDigit other = false ->
  Ascii.eqb c other = false.
Proof.
  intros Hc Ho. destruct (Ascii.eqb_spec c other) as [->|]; congruence.
Qed.

(** [readInt] reads back the integer [FormatInt] printed. *)
Lemma readInt_FormatInt (i : Z) (rest : string) :
  minInt <= i <= maxInt ->
  Transport.startsWithDigit rest = false ->
  Transport.readInt (strconv.FormatInt i ++ rest) = Some (i, rest).
Proof.
  intros Hi Hrest. rewrite FormatInt_magnitude by assumption.
  unfold minInt, maxInt in Hi.
  destruct (Z.ltb_spec i 0) as [Hneg|Hpos].
  - destruct (readDigits_magnitude (- i) rest) as [Hread Hstart];
      [lia | assumption |].
    cbn [append Transport.readInt].
    change (Ascii.eqb "-" "-") with true. cbv iota.
    rewrite Hstart, Hread. f_equal. f_equal. lia.
  - destruct (readDigits_magnitude i rest) as [Hread Hstart];
      [lia | assumption |].
    destruct (strconv.formatBits strconv.bufferLen i "" ++ rest)
      as [|c s] eqn:E; [discriminate|].
    cbn [Transport.startsWithDigit] in Hstart.
    cbn [Transport.readInt].
    rewrite (isDigit_not c "-" Hstart eq_refl), Hstart.
    now rewrite Hread.
Qed.

(** [readValue] on a printed integer: its first character is neither the
    [t] of [true] nor the [f] of [false]. *)
Lemma readValue_FormatInt (i : Z) (rest : string) :
  minInt <= i <= maxInt ->
  Transport.startsWithDigit rest = false ->
  Transport.readValue (strconv.FormatInt i ++ rest)
  = Some (json.Int i, rest).
Proof.
  intros Hi Hrest.
  pose proof (readInt_FormatInt i rest Hi Hrest) as Hread.
  destruct (strconv.FormatInt i ++ rest) as [|c s] eqn:E; [discriminate|].
  unfold Transport.readValue.
  assert (Hc : Ascii.eqb c "t" = false /\ Ascii.eqb c "f" = false).
  { cbn [Transport.readInt] in Hread.
    destruct (Ascii.eqb_spec c "-") as [->|_]; [split; reflexivity|].
    destruct (Transport.isDigit c) eqn:D; [|discriminate].
    split; apply isDigit_not; auto. }
  destruct Hc as [-> ->]. now rewrite Hread.
Qed.

(** ** The JSON object: unmarshaling what was marshaled *)

Lemma UnmarshalFanConfig_fanJSON (c : FanConfig) :
  wf_FanConfig c ->
  Transport.UnmarshalFanConfig
    (fanJSON (On c) (strconv.FormatInt (Speed c))) = Some c.
Proof.
  intros Hwf. destruct c as [on speed]. unfold wf_FanConfig in Hwf.
  cbn [On Speed] in *.
  pose proof (readValue_FormatInt speed "}" Hwf eq_refl) as Hvalue.
  assert (Hfits : ((minInt <=? speed) && (speed <=? maxInt))%bool = true)
    by (apply andb_true_iff; split; lia).
  unfold Transport.UnmarshalFanConfig, fanJSON.
  set (tail := strconv.FormatInt speed ++ "}") in *. clearbody tail.
  destruct on; cbn; rewrite Hvalue; cbn -[minInt maxInt Z.leb];
    now rewrite Hfits.
Qed.

(** * The claims *)

(** ** C1: the scenario of the specification *)

(** C1.  In a world where the client is built and the registry accepts the
    call, running the program on the payload [{on: true, speed: 40}] for the
    address [{proj1, us-central1, reg1, dev1}] resolves the device path to
    [projects/proj1/locations/us-central1/registries/reg1/devices/dev1],
    sends the standard base64 encoding of the bytes of
    [{"on":true,"speed":40}], calls the registry exactly once and ends
    without an error: the run is that one remote call and nothing else. *)
Theorem scenario_proj1_dev1 (w : World) :
  let path :=
    "projects/proj1/locations/us-central1/registries/reg1/devices/dev1" in
  let data := b64.EncodeToString (fanJSON true "40") in
  NewService_err w = None ->
  Do_err w 0%nat path data = None ->
  devicePath scenarioAddress = path
  /\ data = "eyJvbiI6dHJ1ZSwic3BlZWQiOjQwfQ=="
  /\ remoteCalls (run (main_at json.MarshalFanConfig scenarioAddress) w)
     = [(path, data)]
  /\ printed (run (main_at json.MarshalFanConfig scenarioAddress) w) = []
  /\ run (main_at json.MarshalFanConfig scenarioAddress) w
     = [RemoteCall path data].
Proof.
  intros path data Hnew Hdo.
  assert (Hrun : run (main_at json.MarshalFanConfig scenarioAddress) w
                 = [RemoteCall path data]).
  { rewrite main_at_run, Hnew.
    change (json.MarshalFanConfig {| On := true; Speed := 40 |})
      with (fanJSON true "40", @None error).
    cbv beta iota zeta. change (devicePath scenarioAddress) with path.
    fold data. now rewrite Hdo. }
  rewrite Hrun. repeat split.
Qed.

Lemma scenario_proj1_dev1_witness :
  remoteCalls (run (main_at json.MarshalFanConfig scenarioAddress) accepting)
  = [("projects/proj1/locations/us-central1/registries/reg1/devices/dev1",
      "eyJvbiI6dHJ1ZSwic3BlZWQiOjQwfQ==")].
Proof.
  exact (proj1 (proj2 (proj2
           (scenario_proj1_dev1 accepting eq_refl eq_refl)))).
Defined.

(** ** C2: the resolved path of a valid address *)

(** C2.  For every address whose four fields are non-empty and path-safe,
    path resolution returns exactly
    [projects/{projectID}/locations/{location}/registries/{registryID}/devices/{deviceID}]. *)
Theorem devicePath_valid_address (a : DeviceAddress) :
  validAddress a = true ->
  devicePath a
  = "projects/" ++ projectID a ++ "/locations/" ++ location a
    ++ "/registries/" ++ registryID a ++ "/devices/" ++ deviceID a
  /\ resolve a
     = Resolved (pathOf (projectID a) (location a) (registryID a)
                        (deviceID a)).
Proof.
  intros _. unfold resolve. rewrite devicePath_pathOf. split; reflexivity.
Qed.

Lemma devicePath_valid_address_witness :
  devicePath scenarioAddress
  = "projects/proj1/locations/us-central1/registries/reg1/devices/dev1".
Proof.
  exact (proj1 (devicePath_valid_address scenarioAddress eq_refl)).
Defined.

(** ** C3: the transport encoding round-trips *)

(** C3.  For every payload the Go type can hold, base64-decoding the
    encoded payload and deserializing the JSON bytes gives the payload
    back: encode-then-decode is the identity. *)
Theorem payload_round_trip (c : FanConfig) :
  wf_FanConfig c ->
  Transport.decodePayload
    (b64.EncodeToString (fst (json.MarshalFanConfig c))) = Some c.
Proof.
  intros Hwf. unfold Transport.decodePayload.
  rewrite DecodeString_EncodeToString, MarshalFanConfig_bytes.
  cbn [fst]. now apply UnmarshalFanConfig_fanJSON.
Qed.

Lemma payload_round_trip_witness :
  Transport.decodePayload "eyJvbiI6dHJ1ZSwic3BlZWQiOjQwfQ==" = Some sunny40.
Proof.
  refine (payload_round_trip sunny40 _).
  unfold wf_FanConfig, minInt, maxInt. simpl. lia.
Defined.

(** ** C4: no retry *)

(** C4, as the claim states it, fails: with a registry that is unavailable
    at every call, the program calls it once, not up to the default of three
    attempts, and prints that one error. *)
Lemma no_retry_counterexample :
  NewService_err alwaysUnavailable = None
  /\ (forall k name data,
        Do_err alwaysUnavailable k name data = Some Unavailable)
  /\ List.length (remoteCalls (run main alwaysUnavailable)) = 1%nat
  /\ List.length (remoteCalls (run main alwaysUnavailable))
     <> defaultMaxAttempts
  /\ List.length (remoteCalls (run (UpdateWeather getRequest)
                                   alwaysUnavailable)) = 1%nat.
Proof.
  repeat split; try reflexivity. vm_compute. discriminate.
Qed.

(** C4, amended.  When the remote call fails, with [Unavailable] or with
    any other error, neither program retries: the run is the one remote
    call followed by the printed error (and, in the handler, by the 500
    response); the program then ends normally. *)
Theorem failed_call_is_not_retried (a : DeviceAddress) (r : http.Request)
  (w : World) (e : error) :
  NewService_err w = None ->
  (forall name data, Do_err w 0%nat name data = Some e) ->
  (exists data,
     run (main_at json.MarshalFanConfig a) w
     = [RemoteCall (devicePath a) data; error_line e])
  /\ (exists data,
        run (UpdateWeather r) w
        = [RemoteCall (devicePath placeholders) data; error_line e;
           WriteHeader 500; Write "500 - Something bad happened!"])
  /\ List.length (remoteCalls (run (main_at json.MarshalFanConfig a) w))
     = 1%nat
  /\ List.length (remoteCalls (run (UpdateWeather r) w)) = 1%nat.
Proof.
  intros Hnew Hdo. unfold UpdateWeather.
  rewrite main_at_run, UpdateWeather_with_run, Hnew.
  rewrite !MarshalFanConfig_bytes. cbv beta iota zeta. rewrite !Hdo.
  repeat split; eexists; reflexivity.
Qed.

Lemma failed_call_is_not_retried_witness :
  List.length (remoteCalls (run main alwaysUnavailable)) = 1%nat.
Proof.
  exact (proj1 (proj2 (proj2
    (failed_call_is_not_retried placeholders getRequest alwaysUnavailable
       Unavailable eq_refl (fun _ _ => eq_refl))))).
Defined.

(** ** C5: no validation of the address *)

(** C5, as the claim states it, fails: with an empty project, resolution
    does not fail but returns a malformed path, and the program sends the
    request to that path; a separator in a field goes into the path as it
    is. *)
Lemma resolve_empty_field_counterexample :
  validAddress emptyProject = false
  /\ resolve emptyProject
     = Resolved "projects//locations/loc/registries/reg/devices/dev"
  /\ resolve emptyProject <> InvalidAddressError
  /\ validAddress slashDevice = false
  /\ resolve slashDevice
     = Resolved "projects/proj1/locations/loc/registries/reg/devices/a/b"
  /\ remoteCalls (run (main_at json.MarshalFanConfig emptyProject) accepting)
     = [("projects//locations/loc/registries/reg/devices/dev",
         "eyJvbiI6dHJ1ZSwic3BlZWQiOjQwfQ==")].
Proof.
  repeat split; try reflexivity. discriminate.
Qed.

(** C5, amended.  Path resolution never fails: for every four strings,
    empty or not, path-safe or not, it returns the four fields put as they
    are into [projects/.../locations/.../registries/.../devices/...]. *)
Theorem resolve_never_fails (a : DeviceAddress) :
  resolve a
  = Resolved ("projects/" ++ projectID a ++ "/locations/" ++ location a
              ++ "/registries/" ++ registryID a ++ "/devices/" ++ deviceID a)
  /\ resolve a <> InvalidAddressError.
Proof.
  unfold resolve. rewrite devicePath_pathOf. split; [reflexivity|discriminate].
Qed.

(** ** C6: the response of the handler *)

(** C6, as the claim states it, fails: when the client cannot be built the
    handler writes no status and no body; and when the remote call is made
    the body is a fixed text that does not name the device, whatever the
    outcome. *)
Lemma handler_response_counterexample :
  run (UpdateWeather getRequest) noCredentials
  = [error_line (errorString "google: could not find default credentials")]
  /\ response (run (UpdateWeather getRequest) noCredentials) = []
  /\ response (run (UpdateWeather getRequest) alwaysUnavailable)
     = [WriteHeader 500; Write "500 - Something bad happened!"]
  /\ mentions "DEVICE-ID" "500 - Something bad happened!" = false
  /\ response (run (UpdateWeather getRequest) accepting)
     = [WriteHeader 200; Write "Success!"]
  /\ mentions "DEVICE-ID" "Success!" = false.
Proof.
  repeat split.
Qed.

(** C6, amended.  When the client is built, the handler writes one status
    and one body: 200 and [Success!] when its remote call succeeded, 500
    and the fixed text [500 - Something bad happened!] when it failed. *)
Theorem handler_response_when_client_built (r : http.Request) (w : World) :
  NewService_err w = None ->
  let data := b64.EncodeToString (fanJSON true "20") in
  response (run (UpdateWeather r) w)
  = match Do_err w 0%nat (devicePath placeholders) data with
    | None => [WriteHeader http.StatusOK; Write "Success!"]
    | Some _ => [WriteHeader http.StatusInternalServerError;
                 Write "500 - Something bad happened!"]
    end.
Proof.
  intros Hnew data. unfold UpdateWeather.
  rewrite UpdateWeather_with_run, Hnew.
  change (json.MarshalFanConfig {| On := true; Speed := 20 |})
    with (fanJSON true "20", @None error).
  cbv beta iota zeta. fold data.
  destruct (Do_err w 0%nat (devicePath placeholders) data); reflexivity.
Qed.

Lemma handler_response_when_client_built_witness :
  response (run (UpdateWeather getRequest) accepting)
  = [WriteHeader 200; Write "Success!"]
  /\ response (run (UpdateWeather getRequest) alwaysUnavailable)
     = [WriteHeader 500; Write "500 - Something bad happened!"].
Proof.
  split.
  - exact (handler_response_when_client_built getRequest accepting eq_refl).
  - exact (handler_response_when_client_built getRequest alwaysUnavailable
             eq_refl).
Defined.

(** ** C7: the path depends on the four fields only *)

Lemma main_at_call marshal (a : DeviceAddress) (w : World)
  (name data : string) :
  In (name, data) (remoteCalls (run (main_at marshal a) w)) ->
  name = devicePath a.
Proof.
  rewrite main_at_run.
  destruct (NewService_err w); [intros []|].
  destruct (marshal _) as [bytes [e|]]; [intros []|].
  cbv zeta. cbn [remoteCalls].
  destruct (Do_err w 0%nat _ _); cbn; intros [H|[]]; congruence.
Qed.

(** C7.  Two resolutions from equal [projectID], [location], [registryID]
    and [deviceID] give equal paths; and the path a run sends its request
    to is that function of the four fields, whatever the world answers and
    whatever the marshaler returns. *)
Theorem devicePath_depends_on_fields_only
  (a1 a2 : DeviceAddress) (w1 w2 : World)
  (marshal1 marshal2 : FanConfig -> string * option error)
  (name1 data1 name2 data2 : string) :
  projectID a1 = projectID a2 ->
  location a1 = location a2 ->
  registryID a1 = registryID a2 ->
  deviceID a1 = deviceID a2 ->
  In (name1, data1) (remoteCalls (run (main_at marshal1 a1) w1)) ->
  In (name2, data2) (remoteCalls (run (main_at marshal2 a2) w2)) ->
  devicePath a1 = devicePath a2
  /\ name1 = name2
  /\ name1 = pathOf (projectID a1) (location a1) (registryID a1)
                    (deviceID a1).
Proof.
  intros Hp Hl Hr Hd H1 H2.
  apply main_at_call in H1. apply main_at_call in H2.
  assert (E : devicePath a1 = devicePath a2)
    by (rewrite !devicePath_pathOf; congruence).
  split; [exact E|]. split; [congruence|].
  rewrite H1. apply devicePath_pathOf.
Qed.

Lemma devicePath_depends_on_fields_only_witness :
  devicePath scenarioAddress = devicePath scenarioAddress
  /\ devicePath scenarioAddress = devicePath scenarioAddress
  /\ devicePath scenarioAddress = pathOf "proj1" "us-central1" "reg1" "dev1".
Proof.
  refine (devicePath_depends_on_fields_only
            scenarioAddress scenarioAddress accepting alwaysUnavailable
            json.MarshalFanConfig json.MarshalFanConfig
            (devicePath scenarioAddress) (Transport.encodePayload sunny40)
            (devicePath scenarioAddress) (Transport.encodePayload sunny40)
            eq_refl eq_refl eq_refl eq_refl _ _).
  - vm_compute. left. reflexivity.
  - vm_compute. left. reflexivity.
Defined.

(** ** C8: marshaling a [FanConfig] cannot fail *)

(** C8.  For every [FanConfig], [json.Marshal] returns the bytes of
    [{"on":...,"speed":...}] and a nil error; so neither program takes the
    return after [json.Marshal]: once the client is built, the run reaches
    the remote call. *)
Theorem Marshal_FanConfig_succeeds (c : FanConfig) :
  snd (json.MarshalFanConfig c) = None
  /\ fst (json.MarshalFanConfig c)
     = fanJSON (On c) (strconv.FormatInt (Speed c))
  /\ (forall (a : DeviceAddress) (w : World),
        NewService_err w = None ->
        List.length (remoteCalls (run (main_at json.MarshalFanConfig a) w))
        = 1%nat)
  /\ (forall (r : http.Request) (w : World),
        NewService_err w = None ->
        List.length (remoteCalls (run (UpdateWeather r) w)) = 1%nat).
Proof.
  rewrite MarshalFanConfig_bytes. repeat split.
  - intros a w Hnew. rewrite main_at_run, Hnew, MarshalFanConfig_bytes.
    cbv beta iota zeta. cbn [remoteCalls].
    now destruct (Do_err w 0%nat _ _).
  - intros r w Hnew. unfold UpdateWeather.
    rewrite UpdateWeather_with_run, Hnew, MarshalFanConfig_bytes.
    cbv beta iota zeta. cbn [remoteCalls].
    now destruct (Do_err w 0%nat _ _).
Qed.

Lemma Marshal_FanConfig_succeeds_witness :
  List.length (remoteCalls (run main alwaysUnavailable)) = 1%nat.
Proof.
  exact (proj1 (proj2 (proj2 (Marshal_FanConfig_succeeds sunny40)))
           placeholders alwaysUnavailable eq_refl).
Defined.

(** ** C9: the early returns of the handler *)

(** C9.  If the client cannot be built or marshaling fails, the handler
    returns having written no status and no body; the 500 response is
    written exactly when the remote call was made and failed; so any two
    early returns leave the same (empty) response. *)
Theorem early_return_writes_nothing
  (marshal marshal' : FanConfig -> string * option error)
  (r r' : http.Request) (w w' : World) :
  let early m (v : World) :=
    NewService_err v <> None \/ snd (m sunny20) <> None in
  (early marshal w -> response (run (UpdateWeather_with marshal r) w) = [])
  /\ (In (WriteHeader 500) (run (UpdateWeather_with marshal r) w) <->
      NewService_err w = None /\ snd (marshal sunny20) = None
      /\ Do_err w 0%nat (devicePath placeholders)
           (b64.EncodeToString (fst (marshal sunny20))) <> None)
  /\ (early marshal w -> early marshal' w' ->
      response (run (UpdateWeather_with marshal r) w)
      = response (run (UpdateWeather_with marshal' r') w')).
Proof.
  intros early.
  assert (Hearly : forall m q v,
             early m v -> response (run (UpdateWeather_with m q) v) = []).
  { intros m q v Hm. rewrite UpdateWeather_with_run. unfold early in Hm.
    destruct (NewService_err v); [reflexivity|].
    change {| On := true; Speed := 20 |} with sunny20.
    destruct (m sunny20) as [bytes [e|]]; [reflexivity|].
    cbn in Hm. destruct Hm as [Hm|Hm]; now elim Hm. }
  split; [apply Hearly|]. split.
  - rewrite UpdateWeather_with_run.
    change {| On := true; Speed := 20 |} with sunny20.
    destruct (NewService_err w) as [e|].
    { split; [|intros [H _]; discriminate].
      cbn. intros [H|[]]. discriminate. }
    destruct (marshal sunny20) as [bytes [e|]]; cbn [fst snd].
    { split; [|intros (_ & H & _); discriminate].
      cbn. intros [H|[]]. discriminate. }
    cbv zeta. destruct (Do_err w 0%nat _ _) as [e|].
    + split; [intros _; repeat split; discriminate|].
      intros _. cbn. auto.
    + split; [|intros (_ & _ & H); now elim H].
      cbn. intros [H|[H|[H|[]]]]; discriminate.
  - intros H H'. now rewrite !Hearly.
Qed.

Lemma early_return_writes_nothing_witness :
  response (run (UpdateWeather getRequest) noCredentials) = []
  /\ response (run (UpdateWeather_with failingMarshal getRequest) accepting)
     = [].
Proof.
  split.
  - refine (proj1 (early_return_writes_nothing
                     json.MarshalFanConfig json.MarshalFanConfig
                     getRequest getRequest noCredentials noCredentials) _).
    left. discriminate.
  - refine (proj1 (early_return_writes_nothing
                     failingMarshal failingMarshal
                     getRequest getRequest accepting accepting) _).
    right. discriminate.
Defined.

(** ** C10: the request is ignored *)

(** C10.  The handler does not read its request: on any request the path
    and the data of a remote call are the constants of the source (payload
    [{"on":true,"speed":20}]), so for any two requests the arguments of the
    remote call are identical; in one world the two runs are equal. *)
Theorem UpdateWeather_ignores_request
  (r1 r2 : http.Request) (w1 w2 : World) (call1 call2 : string * string) :
  In call1 (remoteCalls (run (UpdateWeather r1) w1)) ->
  In call2 (remoteCalls (run (UpdateWeather r2) w2)) ->
  call1 = call2
  /\ call1
     = ("projects/YOUR-GCP-PROJECT-ID/locations/REGISTRY-LOCATION/registries/REGISTRY-ID/devices/DEVICE-ID",
        "eyJvbiI6dHJ1ZSwic3BlZWQiOjIwfQ==")
  /\ snd call1 = b64.EncodeToString (fanJSON true "20")
  /\ run (UpdateWeather r1) w1 = run (UpdateWeather r2) w1.
Proof.
  assert (Hcall : forall r w c,
             In c (remoteCalls (run (UpdateWeather r) w)) ->
             c = ("projects/YOUR-GCP-PROJECT-ID/locations/REGISTRY-LOCATION/registries/REGISTRY-ID/devices/DEVICE-ID",
                  "eyJvbiI6dHJ1ZSwic3BlZWQiOjIwfQ==")).
  { intros r w c. unfold UpdateWeather. rewrite UpdateWeather_with_run.
    destruct (NewService_err w); [intros []|].
    change (json.MarshalFanConfig {| On := true; Speed := 20 |})
      with (fanJSON true "20", @None error).
    cbv beta iota zeta. cbn [remoteCalls].
    destruct (Do_err w 0%nat _ _); cbn; intros [H|[]]; now subst c. }
  intros H1 H2. apply Hcall in H1. apply Hcall in H2. subst call1 call2.
  split; [reflexivity|]. split; [reflexivity|]. split.
  - vm_compute. reflexivity.
  - unfold UpdateWeather. now rewrite !UpdateWeather_with_run.
Qed.

Lemma UpdateWeather_ignores_request_witness :
  run (UpdateWeather getRequest) accepting
  = run (UpdateWeather postRequest) accepting.
Proof.
  refine (proj2 (proj2 (proj2
    (UpdateWeather_ignores_request getRequest postRequest
       accepting alwaysUnavailable
       (devicePath placeholders, Transport.encodePayload sunny20)
       (devicePath placeholders, Transport.encodePayload sunny20) _ _)))).
  - vm_compute. left. reflexivity.
  - vm_compute. left. reflexivity.
Defined.

(** * Further properties of the two programs *)

(** ** What a run prints and when it calls the registry *)

(** [main] prints nothing exactly when the client was built and the
    registry accepted the call; it never prints more than one line. *)
Theorem main_silent_iff_accepted (a : DeviceAddress) (w : World) :
  (printed (run (main_at json.MarshalFanConfig a) w) = [] <->
   NewService_err w = None
   /\ Do_err w 0%nat (devicePath a) (b64.EncodeToString (fanJSON true "40"))
      = None)
  /\ (List.length (printed (run (main_at json.MarshalFanConfig a) w)) <= 1)%nat.
Proof.
  rewrite main_at_run, MarshalFanConfig_bytes. cbv beta iota zeta.
  cbn [On Speed].
  change (strconv.FormatInt 40) with "40".
  destruct (NewService_err w) as [e|].
  { cbn. split; [|lia]. split; [discriminate | intros [H _]; discriminate]. }
  destruct (Do_err w 0%nat _ _) as [e|]; cbn; (split; [|lia]).
  - split; [discriminate | intros [_ H]; discriminate].
  - split; auto.
Qed.

Lemma main_silent_iff_accepted_witness :
  printed (run (main_at json.MarshalFanConfig scenarioAddress) accepting) = [].
Proof.
  apply (proj1 (main_silent_iff_accepted scenarioAddress accepting)).
  split; reflexivity.
Defined.

(** The registry is called at most once in a run, and not at all exactly
    when the client could not be built or the payload could not be
    marshaled. *)
Theorem remote_call_needs_client_and_payload
  (marshal : FanConfig -> string * option error)
  (a : DeviceAddress) (r : http.Request) (w : World) :
  (remoteCalls (run (main_at marshal a) w) = [] <->
   NewService_err w <> None \/ snd (marshal sunny40) <> None)
  /\ (remoteCalls (run (UpdateWeather_with marshal r) w) = [] <->
      NewService_err w <> None \/ snd (marshal sunny20) <> None)
  /\ (List.length (remoteCalls (run (main_at marshal a) w)) <= 1)%nat
  /\ (List.length (remoteCalls (run (UpdateWeather_with marshal r) w)) <= 1)%nat.
Proof.
  rewrite main_at_run, UpdateWeather_with_run.
  change {| On := true; Speed := 40 |} with sunny40.
  change {| On := true; Speed := 20 |} with sunny20.
  destruct (NewService_err w) as [e|].
  { cbn. repeat split; try lia; auto; intros _; left; discriminate. }
  destruct (marshal sunny40) as [b40 [e40|]];
    destruct (marshal sunny20) as [b20 [e20|]]; cbv zeta; cbn [snd];
    repeat match goal with
           | |- context [Do_err w 0%nat ?n ?d] => destruct (Do_err w 0%nat n d)
           end;
    cbn; repeat split; try lia; auto;
    try (intros _; right; discriminate);
    try discriminate;
    intros [H|H]; now elim H.
Qed.

Lemma remote_call_needs_client_and_payload_witness :
  remoteCalls (run main noCredentials) = [].
Proof.
  apply (proj1 (remote_call_needs_client_and_payload
                  json.MarshalFanConfig placeholders getRequest
                  noCredentials)).
  left. discriminate.
Defined.



(** ** The order of the handler's effects *)

Lemma app_cons_singleton {A : Type} (x y : A) (pre post : list A) :
  [x] = (pre ++ y :: post)%list -> pre = [] /\ x = y /\ post = [].
Proof.
  destruct pre as [|z pre]; cbn; intros H.
  - now inversion H.
  - inversion H. now destruct pre.
Qed.

(** Wherever the handler writes a status, it has called the registry
    before, the status is 200 or 500, exactly the body follows it, and a
    500 comes after the printed error. *)
Theorem status_follows_remote_call
  (marshal : FanConfig -> string * option error)
  (r : http.Request) (w : World) (pre post : trace) (code : Z) :
  run (UpdateWeather_with marshal r) w = (pre ++ WriteHeader code :: post)%list ->
  (exists data, In (RemoteCall (devicePath placeholders) data) pre)
  /\ (exists body, post = [Write body])
  /\ (code = 200 \/ code = 500)
  /\ (code = 500 -> exists e, In (error_line e) pre)
  /\ (code = 200 -> printed pre = []).
Proof.
  rewrite UpdateWeather_with_run.
  destruct (NewService_err w) as [e|].
  { intros H. apply app_cons_singleton in H. now destruct H as (_ & H & _). }
  destruct (marshal _) as [bytes [e|]].
  { intros H. apply app_cons_singleton in H. now destruct H as (_ & H & _). }
  cbv zeta. destruct (Do_err w 0%nat _ _) as [e|]; intros H.
  - destruct pre as [|e1 [|e2 [|e3 pre]]]; cbn in H;
      try discriminate; inversion H; subst.
    + split; [eexists; left; reflexivity|].
      split; [eexists; reflexivity|]. split; [now right|].
      split; [intros _; exists e; right; left; reflexivity | discriminate].
    + match goal with
      | H' : [_] = (_ ++ _ :: _)%list |- _ =>
          apply app_cons_singleton in H'; destruct H' as (_ & H' & _);
          discriminate H'
      end.
  - destruct pre as [|e1 [|e2 pre]]; cbn in H;
      try discriminate; inversion H; subst.
    + split; [eexists; left; reflexivity|].
      split; [eexists; reflexivity|]. split; [now left|].
      split; [discriminate | reflexivity].
    + match goal with
      | H' : [_] = (_ ++ _ :: _)%list |- _ =>
          apply app_cons_singleton in H'; destruct H' as (_ & H' & _);
          discriminate H'
      end.
Qed.

Lemma status_follows_remote_call_witness :
  exists data,
    In (RemoteCall (devicePath placeholders) data)
       [RemoteCall (devicePath placeholders) (Transport.encodePayload sunny20)].
Proof.
  refine (proj1 (status_follows_remote_call json.MarshalFanConfig getRequest
                   accepting
                   [RemoteCall (devicePath placeholders)
                      (Transport.encodePayload sunny20)]
                   [Write "Success!"] 200 _)).
  vm_compute. reflexivity.
Defined.

(** ** The handler against the local program *)


(** ** The device path and its separators *)

Lemma append_inv_head (s t1 t2 : string) : s ++ t1 = s ++ t2 -> t1 = t2.
Proof.
  induction s as [|c s IH]; cbn; intros H; [assumption|].
  injection H as H. now apply IH.
Qed.

(** Two strings without separator, each followed by a separator, can only
    be equal piece by piece. *)
Lemma slashFree_append_inj (s1 : string) :
  forall s2 t1 t2,
    slashFree s1 = true -> slashFree s2 = true ->
    s1 ++ String "/" t1 = s2 ++ String "/" t2 -> s1 = s2 /\ t1 = t2.
Proof.
  induction s1 as [|a s1 IH]; intros [|b s2] t1 t2 H1 H2 H; cbn in *.
  - injection H as H. auto.
  - injection H as Hb _. subst b. discriminate.
  - injection H as Ha _. subst a. discriminate.
  - injection H as Hab H. subst b.
    apply andb_true_iff in H1. apply andb_true_iff in H2.
    destruct (IH s2 t1 t2) as [-> ->]; tauto.
Qed.

(** On addresses whose project, location and registry hold no separator,
    path resolution is injective: different addresses get different
    paths. *)
Theorem devicePath_injective (a1 a2 : DeviceAddress) :
  slashFree (projectID a1) = true -> slashFree (location a1) = true ->
  slashFree (registryID a1) = true ->
  slashFree (projectID a2) = true -> slashFree (location a2) = true ->
  slashFree (registryID a2) = true ->
  devicePath a1 = devicePath a2 -> a1 = a2.
Proof.
  destruct a1 as [p1 l1 r1 d1], a2 as [p2 l2 r2 d2].
  cbn [projectID location registryID deviceID].
  intros Hp1 Hl1 Hr1 Hp2 Hl2 Hr2 H.
  rewrite !devicePath_pathOf in H. unfold pathOf in H.
  cbn [projectID location registryID deviceID] in H.
  apply (append_inv_head "projects/") in H.
  apply slashFree_append_inj in H; try assumption. destruct H as [-> H].
  apply (append_inv_head "locations/") in H.
  apply slashFree_append_inj in H; try assumption. destruct H as [-> H].
  apply (append_inv_head "registries/") in H.
  apply slashFree_append_inj in H; try assumption. destruct H as [-> H].
  apply (append_inv_head "devices/") in H. now subst.
Qed.

Lemma devicePath_injective_witness : scenarioAddress = scenarioAddress.
Proof.
  exact (devicePath_injective scenarioAddress scenarioAddress
           eq_refl eq_refl eq_refl eq_refl eq_refl eq_refl eq_refl).
Defined.

Lemma append_length (s t : string) :
  String.length (s ++ t) = (String.length s + String.length t)%nat.
Proof. induction s as [|c s IH]; cbn; [reflexivity | now rewrite IH]. Qed.

(** A separator in a field moves the boundary between fields: whatever
    [p], [x], [l], [r] and [d] are, the project [p/locations/x] with
    location [l] and the project [p] with location [x/locations/l] are two
    different addresses with one and the same path. *)
Theorem devicePath_collision (p x l r d : string) :
  let a1 := {| projectID := p ++ "/locations/" ++ x; location := l;
               registryID := r; deviceID := d |} in
  let a2 := {| projectID := p; location := x ++ "/locations/" ++ l;
               registryID := r; deviceID := d |} in
  devicePath a1 = devicePath a2 /\ a1 <> a2.
Proof.
  intros a1 a2. split.
  - rewrite !devicePath_pathOf. unfold pathOf, a1, a2.
    cbn [projectID location registryID deviceID].
    now rewrite !append_assoc.
  - intros H. apply (f_equal projectID) in H. cbn in H.
    apply (f_equal String.length) in H.
    rewrite append_length in H. cbn in H. lia.
Qed.

Lemma countSlash_append (s t : string) :
  countSlash (s ++ t) = (countSlash s + countSlash t)%nat.
Proof.
  induction s as [|c s IH]; cbn; [reflexivity|].
  rewrite IH. now destruct (Ascii.eqb c "/").
Qed.

Lemma countSlash_zero (s : string) :
  countSlash s = 0%nat <-> slashFree s = true.
Proof.
  induction s as [|c s IH]; cbn; [tauto|].
  destruct (Ascii.eqb c "/"); cbn; [split; discriminate | exact IH].
Qed.

(** The path has the seven separators of its format, and so its eight
    segments, exactly when no field holds a separator; every separator in a
    field adds one. *)
Theorem devicePath_separators (a : DeviceAddress) :
  countSlash (devicePath a)
  = (7 + countSlash (projectID a) + countSlash (location a)
     + countSlash (registryID a) + countSlash (deviceID a))%nat
  /\ (countSlash (devicePath a) = 7%nat <->
      slashFree (projectID a) = true /\ slashFree (location a) = true
      /\ slashFree (registryID a) = true /\ slashFree (deviceID a) = true).
Proof.
  assert (E : countSlash (devicePath a)
              = (7 + countSlash (projectID a) + countSlash (location a)
                 + countSlash (registryID a) + countSlash (deviceID a))%nat).
  { rewrite devicePath_pathOf. unfold pathOf.
    rewrite !countSlash_append. cbn. lia. }
  split; [exact E|]. rewrite E, <- !countSlash_zero. lia.
Qed.

Lemma devicePath_separators_witness :
  countSlash (devicePath scenarioAddress) = 7%nat.
Proof.
  apply (proj2 (devicePath_separators scenarioAddress)).
  repeat split.
Defined.

(** ** The base64 text *)

Lemma alphabet_members :
  forallb (fun n => alphabetChar (b64.encode (Z.of_nat n))) (seq 0 64) = true.
Proof. vm_compute. reflexivity. Qed.

Lemma sextet_alphabetChar (v s : Z) :
  0 <= s -> alphabetChar (b64.sextet v s) = true.
Proof.
  intros Hs. unfold b64.sextet. rewrite land_shiftr_63 by assumption.
  assert (Hr : 0 <= (v / 2 ^ s) mod 64 < 64) by (apply Z.mod_pos_bound; lia).
  pose proof alphabet_members as T. rewrite forallb_forall in T.
  specialize (T (Z.to_nat ((v / 2 ^ s) mod 64))).
  rewrite Z2Nat.id in T by lia. apply T. apply in_seq. lia.
Qed.

Lemma mod3_step (n : nat) : Nat.modulo (S (S (S n))) 3 = Nat.modulo n 3.
Proof.
  replace (S (S (S n))) with (n + 1 * 3)%nat by lia.
  now rewrite Nat.Div0.mod_add.
Qed.

Lemma div3_step (n : nat) :
  Nat.div (S (S (S n)) + 2) 3 = S (Nat.div (n + 2) 3).
Proof.
  replace (S (S (S n)) + 2)%nat with (n + 2 + 1 * 3)%nat by lia.
  rewrite Nat.div_add by lia. lia.
Qed.

(** The encoding of [n] bytes has [4 * ceil(n / 3)] characters. *)
Theorem EncodeToString_length (src : string) :
  String.length (b64.EncodeToString src)
  = (4 * Nat.div (String.length src + 2) 3)%nat.
Proof.
  induction src as [| a | a b | a b c src IH] using string_triples_ind;
    try reflexivity.
  cbn [b64.EncodeToString String.length].
  rewrite IH, div3_step. lia.
Qed.

(** The encoding is characters of the alphabet, then the padding its
    length calls for: none, [=] or [==], and only at the end. *)
Theorem EncodeToString_shape (src : string) :
  exists body,
    b64.EncodeToString src = body ++ padding (String.length src)
    /\ allOf alphabetChar body = true.
Proof.
  induction src as [| a | a b | a b c src IH] using string_triples_ind.
  - exists "". split; reflexivity.
  - eexists (String _ (String _ "")). split; [reflexivity|].
    cbn [allOf]. now rewrite !sextet_alphabetChar by lia.
  - eexists (String _ (String _ (String _ ""))). split; [reflexivity|].
    cbn [allOf]. now rewrite !sextet_alphabetChar by lia.
  - destruct IH as (body & E & Hbody).
    eexists (String _ (String _ (String _ (String _ body)))). split.
    + cbn [b64.EncodeToString String.length]. rewrite E.
      unfold padding. rewrite mod3_step. reflexivity.
    + cbn [allOf]. now rewrite !sextet_alphabetChar, Hbody by lia.
Qed.

Lemma EncodeToString_injective_aux (s1 s2 : string) :
  b64.EncodeToString s1 = b64.EncodeToString s2 -> s1 = s2.
Proof.
  intros H. apply (f_equal Transport.DecodeString) in H.
  rewrite !DecodeString_EncodeToString in H. now injection H.
Qed.

(** Different byte strings have different encodings, and only the empty
    string has the empty encoding. *)
Theorem EncodeToString_injective (s1 s2 : string) :
  (b64.EncodeToString s1 = b64.EncodeToString s2 -> s1 = s2)
  /\ (b64.EncodeToString s1 = "" <-> s1 = "").
Proof.
  split; [apply EncodeToString_injective_aux|]. split.
  - intros H. now apply (EncodeToString_injective_aux s1 "").
  - now intros ->.
Qed.

Lemma EncodeToString_injective_witness : "ab" = "ab".
Proof.
  exact (proj1 (EncodeToString_injective "ab" "ab") eq_refl).
Defined.

(** ** The payload on the wire *)

(** Two fan configurations that the Go type can hold are sent as the same
    [BinaryData] only if they are the same configuration. *)
Theorem BinaryData_injective (c1 c2 : FanConfig) :
  wf_FanConfig c1 -> wf_FanConfig c2 ->
  b64.EncodeToString (fst (json.MarshalFanConfig c1))
  = b64.EncodeToString (fst (json.MarshalFanConfig c2)) ->
  c1 = c2.
Proof.
  intros H1 H2 H. apply EncodeToString_injective_aux in H.
  rewrite !MarshalFanConfig_bytes in H. cbn [fst] in H.
  apply (f_equal Transport.UnmarshalFanConfig) in H.
  rewrite !UnmarshalFanConfig_fanJSON in H by assumption. now injection H.
Qed.

Lemma BinaryData_injective_witness : sunny40 = sunny40.
Proof.
  refine (BinaryData_injective sunny40 sunny40 _ _ eq_refl);
    unfold wf_FanConfig, minInt, maxInt; simpl; lia.
Defined.

(** ** The decimal numeral of the speed *)






(** ** What the encoder refuses *)




